(** * The users listing service (services/api/project/__init__.py)

    The module opens one postgres.py gateway at import time, creates and
    seeds the [users] table, and answers [GET /users] with the rows of that
    table.  The program is embedded as a small state-and-exception monad over
    a [world] holding what an interpreter can observe: its environment, the
    databases that connection strings lead to, and what happens to each round
    trip to them.  Every effect is logged, so that the order and the number
    of the effects can be stated.  [main] is one interpreter that loads the
    file and serves; [script] is the file launched with its last two lines,
    where the reloader of the debug mode runs it a second time. *)

From stdpp Require Import base strings list gmap fin_maps.

(** ** The relational engine

    Only what the three statements of the program need: text values, tables
    with named columns, a catalogue of tables by name. *)

Module Sql.

Inductive value : Type :=
| VText (s : string)
| VNull.

#[global] Instance value_eq_dec : EqDecision value.
Proof. solve_decision. Defined.

Abbreviation row := (list value).

Record table : Type := Table { columns : list string; rows : list row }.

Inductive statement : Type :=
| CreateTable (t : string) (cols : list string)
| InsertValues (t : string) (vals : row)
| SelectAll (t : string).

(** The statements of the program, as the text it sends.  Any other text is
    a syntax error for this engine. *)
Definition parse (sql : string) : option statement :=
  if decide (sql = "CREATE TABLE users (name text)") then
    Some (CreateTable "users" ["name"])
  else if decide (sql = "INSERT INTO users VALUES ('maggie simpson')") then
    Some (InsertValues "users" [VText "maggie simpson"])
  else if decide (sql = "SELECT * FROM users;") then
    Some (SelectAll "users")
  else None.

(** A query without ORDER BY returns the rows in an order the engine
    chooses.  Each query is given its scan order: any function that
    permutes the rows. *)
Record scan_order : Type := ScanOrder {
  reorder : list row → list row;
  reorder_perm : ∀ l, reorder l ≡ₚ l
}.

Definition heap_order : scan_order :=
  ScanOrder (λ l, l) (λ l, reflexivity l).

Definition backward_order : scan_order :=
  ScanOrder reverse reverse_Permutation.

Inductive failure : Type :=
| DuplicateTable
| UndefinedTable
| TooManyValues.

(** One statement against a catalogue: the new catalogue and the result
    set ([None] for a statement that returns no rows), or a failure that
    leaves the catalogue as it was.  A short VALUES list is completed with
    NULLs, as the engine does for columns without a default. *)
Definition exec (o : scan_order) (s : statement) (db : gmap string table)
  : failure + gmap string table * option (list row) :=
  match s with
  | CreateTable t cols =>
      match db !! t with
      | Some _ => inl DuplicateTable
      | None => inr (<[t := Table cols []]> db, None)
      end
  | InsertValues t vals =>
      match db !! t with
      | None => inl UndefinedTable
      | Some tb =>
          if decide (length vals ≤ length (columns tb)) then
            let r := vals ++ replicate (length (columns tb) - length vals) VNull in
            inr (<[t := Table (columns tb) (rows tb ++ [r])]> db, None)
          else inl TooManyValues
      end
  | SelectAll t =>
      match db !! t with
      | None => inl UndefinedTable
      | Some tb => inr (db, Some (reorder o (rows tb)))
      end
  end.

(** Every row of a table has one value per column. *)
Definition wf_table (tb : table) : Prop :=
  Forall (λ r : row, length r = length (columns tb)) (rows tb).

Definition wf_database (db : gmap string table) : Prop :=
  map_Forall (λ _ tb, wf_table tb) db.

End Sql.

Import Sql.

(** ** Python values and their JSON rendering *)

#[local] Set Warnings "-register-all".

Inductive pyval : Type :=
| PyNone
| PyStr (s : string)
| PyTuple (items : list pyval)
| PyList (items : list pyval)
| PyDict (items : list (string * pyval)).

Inductive json : Type :=
| JNull
| JString (s : string)
| JArray (items : list json)
| JObject (members : list (string * json)).

(** json.dumps: a tuple (a named tuple too) is written as an array. *)
Fixpoint dumps (v : pyval) : json :=
  match v with
  | PyNone => JNull
  | PyStr s => JString s
  | PyTuple l => JArray (map dumps l)
  | PyList l => JArray (map dumps l)
  | PyDict d => JObject (map (λ kv, let '(k, x) := kv in (k, dumps x)) d)
  end.

(** ** The process and its world *)

Inductive exn : Type :=
| OperationalError   (* the database cannot be reached *)
| ProgrammingError.  (* the engine rejects the statement *)

Inductive event : Type :=
| Getenv (key : string)
| Connect (url : option string)
| Run (sql : string)
| All (sql : string)
| Listen.

#[global] Instance event_eq_dec : EqDecision event.
Proof. solve_decision. Defined.

(** One round trip to the database.  On the connection the pool holds it
    goes through or not.  When the pool has no connection it opens one first,
    and libpq completes the connection string from the PG variables of the
    environment as it is at that moment: whether the database is reached can
    then depend on them. *)
Inductive hop : Type :=
| Live (ok : bool)
| Opens (reaches : gmap string string → bool).

(** [servers] holds the databases by the connection string that leads to
    them, the empty string standing for libpq's defaults; [link] is what
    happens to the coming round trips, one entry per round trip; past its end
    the link is up. *)
Record world : Type := World {
  environ : gmap string string;
  servers : gmap string (gmap string table);
  link : list hop
}.

Inductive result (A : Type) : Type :=
| Returned (a : A)
| Raised (e : exn).
Arguments Returned {A} a.
Arguments Raised {A} e.

Record outcome (A : Type) : Type := Outcome {
  res : result A;
  final : world;
  trace : list event
}.
Arguments Outcome {A} res final trace.
Arguments res {A} o.
Arguments final {A} o.
Arguments trace {A} o.

Definition prog (A : Type) : Type := world → outcome A.

#[global] Instance prog_ret : MRet prog :=
  λ A a w, Outcome (Returned a) w [].

#[global] Instance prog_bind : MBind prog :=
  λ A B k m w,
    match m w with
    | Outcome (Raised e) w1 t1 => Outcome (Raised e) w1 t1
    | Outcome (Returned a) w1 t1 =>
        match k a w1 with
        | Outcome r w2 t2 => Outcome r w2 (t1 ++ t2)
        end
    end.

Definition raise {A : Type} (e : exn) : prog A :=
  λ w, Outcome (Raised e) w [].

Definition emit (ev : event) : prog unit :=
  λ w, Outcome (Returned ()) w [ev].

(** Assignment to one field of the world. *)
Definition with_servers (sv : gmap string (gmap string table)) (w : world) : world :=
  World (environ w) sv (link w).

Definition with_link (l : list hop) (w : world) : world :=
  World (environ w) (servers w) l.

Definition with_environ (env : gmap string string) (w : world) : world :=
  World env (servers w) (link w).

(** ** The libraries the module calls *)

(** os.environ.get(key): [None] for a missing key, no exception. *)
Definition os_environ_get (key : string) : prog (option string) :=
  λ w, Outcome (Returned (environ w !! key)) w [Getenv key].

(** The variables libpq reads: those whose name starts with PG. *)
Definition pg_vars (env : gmap string string) : gmap string string :=
  filter (λ kv : string * string, Is_true (String.prefix "PG" kv.1)) env.

Definition goes_through (h : hop) (env : gmap string string) : bool :=
  match h with
  | Live ok => ok
  | Opens reaches => reaches (pg_vars env)
  end.

(** One round trip to the database: it uses up the head of [link] and fails
    when the link is down. *)
Definition link_up (w : world) : bool :=
  match link w with
  | [] => true
  | h :: _ => goes_through h (environ w)
  end.

Definition round_trip : prog unit :=
  λ w,
    Outcome (if link_up w then Returned () else Raised OperationalError)
            (with_link (tail (link w)) w) [].

Definition catalogue (url : string) : prog (gmap string table) :=
  λ w,
    match servers w !! url with
    | Some db => Outcome (Returned db) w []
    | None => Outcome (Raised OperationalError) w []
    end.

Definition commit (url : string) (db : gmap string table) : prog unit :=
  λ w, Outcome (Returned ()) (with_servers (<[url := db]> (servers w)) w) [].

(** The gateway object: it remembers the connection string it was opened
    with. *)
Record Postgres_handle : Type := Handle { dsn : string }.

(** Postgres(url): the pool opens its first connection in the constructor,
    so an unreachable database fails here.  The source passes on what
    os.environ.get returned: with [None] no connection string reaches libpq,
    which then connects by its defaults, as it does for the empty string. *)
Definition Postgres (url : option string) : prog Postgres_handle :=
  emit (Connect url);;
  round_trip;;
  _ ← catalogue (default "" url);
  mret (Handle (default "" url)).

(** A cursor executing one statement inside a transaction: the catalogue to
    commit and the result set. *)
Definition cursor_execute (o : scan_order) (c : Postgres_handle) (sql : string)
  : prog (gmap string table * option (list row)) :=
  round_trip;;
  db ← catalogue (dsn c);
  match parse sql with
  | None => raise ProgrammingError
  | Some s =>
      match exec o s db with
      | inl _ => raise ProgrammingError
      | inr r => mret r
      end
  end.

(** Postgres.run(sql): execute, keep no result, commit.  The result set is
    dropped, so the scan order does not matter.  A round trip that is lost is
    taken as lost before the statement is executed; a commit that is made
    while its acknowledgement alone is lost is not modelled. *)
Definition Postgres_run (c : Postgres_handle) (sql : string) : prog unit :=
  emit (Run sql);;
  r ← cursor_execute heap_order c sql;
  commit (dsn c) r.1.

Definition to_py (v : value) : pyval :=
  match v with
  | VText s => PyStr s
  | VNull => PyNone
  end.

(** A fetched row is a named tuple of its values. *)
Definition record (r : row) : pyval := PyTuple (map to_py r).

(** rec[0] of a fetched row; a row of a single-column result has that
    field. *)
Definition first_field (r : row) : pyval := default PyNone (to_py <$> head r).

(** postgres.py returns the bare values of a result set that has a single
    column, and the records otherwise; it looks at the first record to
    decide. *)
Definition dereference (recs : list row) : list pyval :=
  match recs with
  | [] => []
  | r :: _ =>
      if decide (length r = 1) then map first_field recs else map record recs
  end.

(** Postgres.all(sql): execute, fetch every row, commit.  Fetching from a
    statement that returns no rows is an error, and the transaction is rolled
    back. *)
Definition Postgres_all (o : scan_order) (c : Postgres_handle) (sql : string)
  : prog (list pyval) :=
  emit (All sql);;
  r ← cursor_execute o c sql;
  match r.2 with
  | None => raise ProgrammingError
  | Some recs => commit (dsn c) r.1;; mret (dereference recs)
  end.

(** flask: a response is a status and, when the body is JSON, that body. *)
Record response : Type := Response { status : nat; body : option json }.

Definition jsonify (v : pyval) : response := Response 200 (Some (dumps v)).

Definition internal_server_error : response := Response 500 None.
Definition not_found : response := Response 404 None.

(** ** The module *)

Record process : Type := Process {
  SQLALCHEMY_DATABASE_URI : option string;
  connection : Postgres_handle
}.

(** Lines 6 to 10: the statements at module level. *)
Definition module_init : prog process :=
  uri ← os_environ_get "DATABASE_URL";
  conn ← Postgres uri;
  Postgres_run conn "CREATE TABLE users (name text)";;
  Postgres_run conn "INSERT INTO users VALUES ('maggie simpson')";;
  mret (Process uri conn).

(** Lines 12 to 15: the view of the route /users. *)
Definition index (o : scan_order) (p : process) : prog response :=
  users ← Postgres_all o (connection p) "SELECT * FROM users;";
  mret (jsonify (PyDict [("users", PyList users)])).

(** The listener of an interpreter that serves: it starts to answer
    requests with the module it has loaded. *)
Definition app_run : prog unit := emit Listen.

(** The file in an interpreter that serves: the module level, then the
    listener.  This is the life of the child that the reloader starts, and,
    the listener being the server's own, of a server that imports the
    module. *)
Definition main : prog process :=
  p ← module_init;
  app_run;;
  mret p.

(** The file launched as a script, lines 17 and 18 included: the launched
    interpreter runs the module level, and app.run(debug=True) then starts
    the reloader, which runs the file again in a child interpreter, on the
    same environment and the same databases, and leaves the serving to it;
    the launched interpreter ends as its child does. *)
Definition script : prog process :=
  _ ← module_init;
  main.

(** Requests: only GET is modelled, the method the route answers. *)
Inductive request : Type := GET (path : string).

(** What the server does with one request: the rule /users matches that path
    only; an exception of the view becomes a 500 response. *)
Definition dispatch (o : scan_order) (p : process) (rq : request) : prog response :=
  λ w,
    match rq with
    | GET path =>
        if decide (path = "/users") then
          let out := index o p w in
          match res out with
          | Returned r => out
          | Raised _ =>
              Outcome (Returned internal_server_error) (final out) (trace out)
          end
        else Outcome (Returned not_found) w []
    end.

(** The requests of a run, each with the scan order the engine uses for
    it. *)
Fixpoint serve (p : process) (rqs : list (scan_order * request)) : prog (list response) :=
  match rqs with
  | [] => mret []
  | (o, rq) :: rest =>
      r ← dispatch o p rq;
      rs ← serve p rest;
      mret (r :: rs)
  end.

(** The whole life of an interpreter that serves: start, then serve. *)
Definition run_process (rqs : list (scan_order * request)) : prog (list response) :=
  p ← main;
  serve p rqs.

(** ** Observations *)

Definition users_table (url : string) (w : world) : option table :=
  db ← servers w !! url; db !! "users".

Definition row_count (url : string) (w : world) : nat :=
  match users_table url w with
  | Some tb => length (rows tb)
  | None => 0
  end.

Definition seed : row := [VText "maggie simpson"].

(** A world with one empty database and the variable set. *)
Definition fresh_world : world :=
  World {[ "DATABASE_URL" := "postgresql://db/app" ]}
        {[ "postgresql://db/app" := ∅ ]}
        [].

Definition users_request : request := GET "/users".

(** ** What the proofs speak of

    The outcomes of the gateway calls and of the startup written out by
    cases, the shapes a listing can have, and the worlds of the examples. *)

(** Runs the monad's plumbing and the primitive effects, and nothing else:
    lookups and the engine stay folded. *)
Ltac prog_red :=
  cbv beta iota zeta delta
    [mbind prog_bind mret prog_ret raise emit round_trip catalogue commit
     os_environ_get];
  cbn [res final trace servers environ link with_link with_servers
       fst snd app].

Definition after_round_trip (w : world) : world := with_link (tail (link w)) w.

(** The result of one statement sent over the gateway: what the engine
    answers, when it can be reached. *)
Definition transact (o : scan_order) (c : Postgres_handle) (sql : string) (w : world)
  : result (gmap string table * option (list row)) :=
  if link_up w then
    match servers w !! dsn c with
    | None => Raised OperationalError
    | Some db =>
        match parse sql with
        | None => Raised ProgrammingError
        | Some s =>
            match exec o s db with
            | inl _ => Raised ProgrammingError
            | inr r => Returned r
            end
        end
    end
  else Raised OperationalError.

Definition select_users : string := "SELECT * FROM users;".
Definition create_users : string := "CREATE TABLE users (name text)".
Definition insert_seed : string := "INSERT INTO users VALUES ('maggie simpson')".

(** The listing, from the state of the world: the fetched rows, or the
    exception of the gateway. *)
Definition listing (o : scan_order) (url : string) (w : world) : result (list row) :=
  if link_up w then
    match servers w !! url with
    | None => Raised OperationalError
    | Some db =>
        match db !! "users" with
        | None => Raised ProgrammingError
        | Some tb => Returned (reorder o (rows tb))
        end
    end
  else Raised OperationalError.

Definition startup_events (w : world) : list event :=
  [Getenv "DATABASE_URL"; Connect (environ w !! "DATABASE_URL");
   Run create_users; Run insert_seed; Listen].

Definition created (db : gmap string table) : gmap string table :=
  <["users" := Table ["name"] []]> db.

Definition seeded (db : gmap string table) : gmap string table :=
  <["users" := Table ["name"] [seed]]> db.

(** The world a successful startup leaves: three round trips used up, the
    table created and seeded in the database of the connection string. *)
Definition started (u : string) (db : gmap string table) (w : world) : world :=
  World (environ w) (<[u := seeded db]> (servers w)) (tail (tail (tail (link w)))).

(** The connection string the module level opens its gateway on: the value
    of DATABASE_URL, or none, which leaves libpq to its defaults. *)
Definition conninfo (w : world) : string :=
  default "" (environ w !! "DATABASE_URL").

(** How far the startup gets. *)
Inductive stage : Type :=
| NoConnection (u : string)
| CreateFailed (u : string) (e : exn)
| InsertFailed (u : string) (db : gmap string table)
| Up (u : string) (db : gmap string table).

Definition second_up (w : world) : bool := link_up (after_round_trip w).
Definition third_up (w : world) : bool :=
  link_up (after_round_trip (after_round_trip w)).

Definition startup_stage (w : world) : stage :=
  let u := conninfo w in
  if link_up w then
    match servers w !! u with
    | None => NoConnection u
    | Some db =>
        if second_up w then
          match db !! "users" with
          | Some _ => CreateFailed u ProgrammingError
          | None => if third_up w then Up u db else InsertFailed u db
          end
        else CreateFailed u OperationalError
    end
  else NoConnection u.

Definition listing_reply (o : scan_order) (url : string) (w : world) : response :=
  match listing o url w with
  | Returned recs => jsonify (PyDict [("users", PyList (dereference recs))])
  | Raised _ => internal_server_error
  end.


(** The database of a connection string cannot be reached: nothing answers
    there, or the link is down for the first round trip. *)
Definition unreachable (u : string) (w : world) : Prop :=
  servers w !! u = None ∨ link_up w = false.

(** Whether the round trip after the next [i] goes through. *)
Definition up_at (i : nat) (w : world) : bool :=
  match link w !! i with
  | Some h => goes_through h (environ w)
  | None => true
  end.

Definition wf_world (w : world) : Prop :=
  map_Forall (λ _ db, wf_database db) (servers w).

(** The body {"users": [...]} whose elements all satisfy [elt]. *)
Definition users_object (elt : json → Prop) (b : json) : Prop :=
  ∃ l, b = JObject [("users", JArray l)] ∧ Forall elt l.

(** {"name": <string>} *)
Definition name_object (j : json) : Prop :=
  ∃ s, j = JObject [("name", JString s)].

(** A string, or null. *)
Definition bare_name (j : json) : Prop :=
  j = JNull ∨ ∃ s, j = JString s.

(** What a row of a single-column table is listed as. *)
Definition name_json (r : row) : json := dumps (first_field r).


(** The answer lists the seed user. *)
Definition lists_seed (r : response) : Prop :=
  ∃ l, r = Response 200 (Some (JObject [("users", JArray l)])) ∧
       In (JString "maggie simpson") l.

(** The first two statements of the module: read the variable, open the
    gateway. *)
Definition open_gateway : prog Postgres_handle :=
  uri ← os_environ_get "DATABASE_URL";
  Postgres uri.

(** The requests of a list that the rule /users matches. *)
Definition for_users (rq : request) : bool :=
  match rq with
  | GET path => bool_decide (path = "/users")
  end.

Definition listings (rqs : list (scan_order * request)) : nat :=
  length (List.filter (λ x : scan_order * request, for_users x.2) rqs).

(** The body of the listing of the seed alone. *)
Definition seed_listing : response :=
  Response 200 (Some (JObject [("users", JArray [JString "maggie simpson"])])).

(** A connection the pool has to open during a request, which reaches the
    database by libpq's default port only. *)
Definition default_port_only : hop :=
  Opens (λ pg, bool_decide (pg !! "PGPORT" = None)).

(** ** The monad, step by step *)

Lemma bind_unfold {A B : Type} (m : prog A) (k : A → prog B) (w : world) :
  (m ≫= k) w =
  match res (m w) with
  | Raised e => Outcome (Raised e) (final (m w)) (trace (m w))
  | Returned a =>
      Outcome (res (k a (final (m w)))) (final (k a (final (m w))))
              (trace (m w) ++ trace (k a (final (m w))))
  end.
Proof.
  unfold mbind, prog_bind. destruct (m w) as [[a|e] w1 t1]; cbn; [|reflexivity].
  destruct (k a w1); reflexivity.
Qed.

Lemma parse_create :
  parse "CREATE TABLE users (name text)" = Some (CreateTable "users" ["name"]).
Proof. reflexivity. Qed.

Lemma parse_insert :
  parse "INSERT INTO users VALUES ('maggie simpson')" =
  Some (InsertValues "users" seed).
Proof. reflexivity. Qed.

Lemma parse_select : parse "SELECT * FROM users;" = Some (SelectAll "users").
Proof. reflexivity. Qed.

(** ** The gateway calls of the module, case by case *)

Lemma Postgres_unfold (url : option string) (w : world) :
  Postgres url w =
  if link_up w then
    match servers w !! default "" url with
    | Some _ =>
        Outcome (Returned (Handle (default "" url))) (after_round_trip w)
                [Connect url]
    | None => Outcome (Raised OperationalError) (after_round_trip w) [Connect url]
    end
  else Outcome (Raised OperationalError) (after_round_trip w) [Connect url].
Proof.
  unfold Postgres, after_round_trip. prog_red. destruct (link_up w); [|reflexivity].
  destruct (servers w !! default "" url); reflexivity.
Qed.

Lemma cursor_execute_unfold o c sql w :
  cursor_execute o c sql w = Outcome (transact o c sql w) (after_round_trip w) [].
Proof.
  unfold cursor_execute, transact, after_round_trip. prog_red.
  destruct (link_up w); [|reflexivity].
  destruct (servers w !! dsn c) as [db|]; [|reflexivity].
  destruct (parse sql) as [s|]; [|reflexivity].
  destruct (exec o s db); reflexivity.
Qed.

Lemma Postgres_run_unfold c sql w :
  Postgres_run c sql w =
  match transact heap_order c sql w with
  | Returned r =>
      Outcome (Returned ())
              (with_servers (<[dsn c := r.1]> (servers w)) (after_round_trip w))
              [Run sql]
  | Raised e => Outcome (Raised e) (after_round_trip w) [Run sql]
  end.
Proof.
  unfold Postgres_run. rewrite bind_unfold. cbn [emit res final trace].
  rewrite bind_unfold, cursor_execute_unfold. cbn [res final trace].
  destruct (transact heap_order c sql w); reflexivity.
Qed.

Lemma Postgres_all_unfold o c sql w :
  Postgres_all o c sql w =
  match transact o c sql w with
  | Returned (db, Some recs) =>
      Outcome (Returned (dereference recs))
              (with_servers (<[dsn c := db]> (servers w)) (after_round_trip w))
              [All sql]
  | Returned (_, None) => Outcome (Raised ProgrammingError) (after_round_trip w) [All sql]
  | Raised e => Outcome (Raised e) (after_round_trip w) [All sql]
  end.
Proof.
  unfold Postgres_all. rewrite bind_unfold. cbn [emit res final trace].
  rewrite bind_unfold, cursor_execute_unfold. cbn [res final trace].
  destruct (transact o c sql w) as [[db [recs|]]|e]; reflexivity.
Qed.

Lemma Postgres_all_select o c w :
  Postgres_all o c select_users w =
  match listing o (dsn c) w with
  | Returned recs =>
      Outcome (Returned (dereference recs)) (after_round_trip w) [All select_users]
  | Raised e => Outcome (Raised e) (after_round_trip w) [All select_users]
  end.
Proof.
  rewrite Postgres_all_unfold.
  unfold transact, listing, select_users. rewrite parse_select. unfold exec.
  destruct (link_up w); [|reflexivity].
  destruct (servers w !! dsn c) as [db|] eqn:Hdb; [|reflexivity].
  destruct (db !! "users") as [tb|]; [|reflexivity].
  rewrite (insert_id _ _ _ Hdb).
  destruct w; reflexivity.
Qed.

Lemma index_unfold o p w :
  index o p w =
  match listing o (dsn (connection p)) w with
  | Returned recs =>
      Outcome (Returned (jsonify (PyDict [("users", PyList (dereference recs))])))
              (after_round_trip w) [All select_users]
  | Raised e => Outcome (Raised e) (after_round_trip w) [All select_users]
  end.
Proof.
  unfold index. rewrite bind_unfold.
  change "SELECT * FROM users;" with select_users.
  rewrite Postgres_all_select.
  destruct (listing o (dsn (connection p)) w); reflexivity.
Qed.

(** ** Startup, case by case *)

Lemma link_up_with_servers sv w : link_up (with_servers sv w) = link_up w.
Proof. reflexivity. Qed.

Lemma main_unfold (w : world) :
  main w =
  match startup_stage w with
  | NoConnection u =>
      Outcome (Raised OperationalError) (after_round_trip w)
              (take 2 (startup_events w))
  | CreateFailed u e =>
      Outcome (Raised e) (after_round_trip (after_round_trip w))
              (take 3 (startup_events w))
  | InsertFailed u db =>
      Outcome (Raised OperationalError)
              (World (environ w) (<[u := created db]> (servers w))
                     (tail (tail (tail (link w)))))
              (take 4 (startup_events w))
  | Up u db =>
      Outcome (Returned (Process (environ w !! "DATABASE_URL") (Handle u)))
              (started u db w) (startup_events w)
  end.
Proof.
  unfold main, module_init, app_run, startup_stage, startup_events,
    second_up, third_up, conninfo.
  prog_red. rewrite Postgres_unfold.
  generalize (default "" (environ w !! "DATABASE_URL")). intros u.
  destruct (link_up w); [|reflexivity].
  destruct (servers w !! u) as [db|] eqn:Hdb; [|reflexivity].
  rewrite Postgres_run_unfold. unfold transact at 1. cbn [dsn].
  destruct (link_up (after_round_trip w)); [|reflexivity].
  cbn [after_round_trip with_link servers]. rewrite Hdb, parse_create.
  unfold exec at 1.
  destruct (db !! "users") as [tb|] eqn:Htb; [reflexivity|].
  cbn [fst snd].
  rewrite Postgres_run_unfold. unfold transact.
  cbn [dsn with_servers with_link servers link after_round_trip].
  rewrite lookup_insert_eq, parse_insert. unfold exec.
  rewrite lookup_insert_eq. cbn [columns rows].
  match goal with |- context [link_up ?x] =>
    change (link_up x) with (link_up (after_round_trip (after_round_trip w)))
  end.
  destruct (link_up (after_round_trip (after_round_trip w))); [|reflexivity].
  destruct (decide _) as [_|Hn]; [|exfalso; apply Hn; cbn; lia].
  cbn [fst snd with_servers after_round_trip with_link servers link environ
       app replicate Nat.sub length seed].
  unfold started, seeded. rewrite !insert_insert_eq. reflexivity.
Qed.

(** ** One request, case by case *)

Lemma dispatch_users o p w :
  dispatch o p users_request w =
  Outcome (Returned (listing_reply o (dsn (connection p)) w))
          (after_round_trip w) [All select_users].
Proof.
  unfold dispatch, users_request, listing_reply.
  destruct (decide ("/users" = "/users")) as [_|Hne]; [|done].
  rewrite index_unfold.
  destruct (listing o (dsn (connection p)) w); reflexivity.
Qed.

Lemma dispatch_elsewhere o p path w :
  path ≠ "/users" →
  dispatch o p (GET path) w = Outcome (Returned not_found) w [].
Proof. intros Hne. unfold dispatch. by destruct (decide (path = "/users")). Qed.

Lemma dispatch_cases o p rq w :
  (rq = users_request ∧
   dispatch o p rq w =
   Outcome (Returned (listing_reply o (dsn (connection p)) w))
           (after_round_trip w) [All select_users]) ∨
  (rq ≠ users_request ∧ dispatch o p rq w = Outcome (Returned not_found) w []).
Proof.
  destruct rq as [path]. destruct (decide (path = "/users")) as [->|Hne].
  - left. split; [done|]. apply dispatch_users.
  - right. split; [unfold users_request; congruence|].
    by apply dispatch_elsewhere.
Qed.

Lemma dispatch_returns o p rq w : ∃ r, res (dispatch o p rq w) = Returned r.
Proof.
  destruct (dispatch_cases o p rq w) as [[_ ->]|[_ ->]]; eauto.
Qed.

Lemma dispatch_servers o p rq w : servers (final (dispatch o p rq w)) = servers w.
Proof.
  destruct (dispatch_cases o p rq w) as [[_ ->]|[_ ->]]; reflexivity.
Qed.


Lemma serve_cons p o rq rest w :
  serve p ((o, rq) :: rest) w =
  match res (dispatch o p rq w), res (serve p rest (final (dispatch o p rq w))) with
  | Returned r, Returned rs =>
      Outcome (Returned (r :: rs))
              (final (serve p rest (final (dispatch o p rq w))))
              (trace (dispatch o p rq w) ++
               trace (serve p rest (final (dispatch o p rq w))))
  | Returned _, Raised e =>
      Outcome (Raised e)
              (final (serve p rest (final (dispatch o p rq w))))
              (trace (dispatch o p rq w) ++
               trace (serve p rest (final (dispatch o p rq w))))
  | Raised e, _ =>
      Outcome (Raised e) (final (dispatch o p rq w)) (trace (dispatch o p rq w))
  end.
Proof.
  cbn [serve]. rewrite bind_unfold.
  destruct (res (dispatch o p rq w)) as [r|e]; [|reflexivity].
  cbn [res final trace]. rewrite bind_unfold.
  destruct (res (serve p rest _)) as [rs|e]; cbn [res final trace mret prog_ret];
    by rewrite ?app_nil_r.
Qed.

Lemma serve_returns p rqs w :
  ∃ rs, res (serve p rqs w) = Returned rs ∧ length rs = length rqs.
Proof.
  revert w. induction rqs as [|[o rq] rest IH]; intros w.
  - by exists [].
  - rewrite serve_cons.
    destruct (dispatch_returns o p rq w) as [r ->].
    destruct (IH (final (dispatch o p rq w))) as (rs & -> & Hlen).
    exists (r :: rs). cbn. by rewrite Hlen.
Qed.

Lemma serve_servers p rqs w : servers (final (serve p rqs w)) = servers w.
Proof.
  revert w. induction rqs as [|[o rq] rest IH]; intros w; [reflexivity|].
  rewrite serve_cons.
  destruct (dispatch_returns o p rq w) as [r ->].
  destruct (serve_returns p rest (final (dispatch o p rq w))) as (rs & -> & _).
  cbn [final]. by rewrite IH, dispatch_servers.
Qed.


Lemma run_process_unfold rqs w :
  run_process rqs w =
  match res (main w) with
  | Returned p =>
      Outcome (res (serve p rqs (final (main w))))
              (final (serve p rqs (final (main w))))
              (trace (main w) ++ trace (serve p rqs (final (main w))))
  | Raised e => Outcome (Raised e) (final (main w)) (trace (main w))
  end.
Proof. unfold run_process. rewrite bind_unfold. by destruct (res (main w)). Qed.

(** ** Startup *)

Lemma main_trace_prefix w : trace (main w) `prefix_of` startup_events w.
Proof.
  rewrite main_unfold.
  destruct (startup_stage w); cbn [trace];
    try apply prefix_take; reflexivity.
Qed.

Lemma main_raised_trace w e :
  res (main w) = Raised e →
  ∃ n, n ≤ 4 ∧ trace (main w) = take n (startup_events w).
Proof.
  rewrite main_unfold.
  destruct (startup_stage w); cbn [res trace]; intros H; try discriminate;
    eexists; (split; [|reflexivity]); lia.
Qed.

Lemma main_returned_trace w p :
  res (main w) = Returned p → trace (main w) = startup_events w.
Proof.
  rewrite main_unfold.
  destruct (startup_stage w); cbn [res trace]; intros H; by try discriminate.
Qed.


Lemma not_listening n w : n ≤ 4 → Listen ∉ take n (startup_events w).
Proof.
  intros Hn Hin. apply list_elem_of_lookup in Hin as [i Hi].
  apply lookup_take_Some in Hi as [Hi Hlt].
  unfold startup_events in Hi.
  do 4 (destruct i as [|i]; [discriminate|]). lia.
Qed.




(** The file launched as a script, by cases of its first interpreter. *)
Lemma main_module_init w :
  main w =
  match res (module_init w) with
  | Returned p =>
      Outcome (Returned p) (final (module_init w)) (trace (module_init w) ++ [Listen])
  | Raised e => Outcome (Raised e) (final (module_init w)) (trace (module_init w))
  end.
Proof.
  unfold main. rewrite bind_unfold.
  destruct (res (module_init w)); reflexivity.
Qed.

Lemma module_init_of_main w :
  res (module_init w) = res (main w) ∧
  final (module_init w) = final (main w) ∧
  trace (main w) =
    trace (module_init w) ++
    match res (main w) with Returned _ => [Listen] | Raised _ => [] end.
Proof.
  rewrite main_module_init.
  destruct (res (module_init w)); cbn [res final trace]; by rewrite ?app_nil_r.
Qed.

Lemma script_unfold w :
  script w =
  match res (main w) with
  | Returned _ =>
      Outcome (res (main (final (main w)))) (final (main (final (main w))))
              (take 4 (startup_events w) ++ trace (main (final (main w))))
  | Raised e => Outcome (Raised e) (final (main w)) (trace (main w))
  end.
Proof.
  unfold script. rewrite bind_unfold.
  destruct (module_init_of_main w) as (Hres & Hfin & Htr).
  rewrite Hres, Hfin. destruct (res (main w)) as [p|e] eqn:Hm.
  - rewrite (main_returned_trace w p Hm) in Htr.
    change (startup_events w) with (take 4 (startup_events w) ++ [Listen]) in Htr at 1.
    apply app_inj_tail in Htr as [<- _]. reflexivity.
  - rewrite app_nil_r in Htr. by rewrite Htr.
Qed.


Lemma unreachable_stage w :
  unreachable (conninfo w) w → startup_stage w = NoConnection (conninfo w).
Proof.
  unfold startup_stage. intros [Hs|Hl].
  - rewrite Hs. by destruct (link_up w).
  - by rewrite Hl.
Qed.

(** C4, as the code has it: when the database that DATABASE_URL names, or
    that libpq's defaults lead to when the variable is absent, cannot be
    reached, the process raises after the read of the variable and the
    attempt to connect: it never listens, serves no request, sends no
    statement and leaves every database as it was, launched as a script or
    loaded by a server. *)
Theorem unreachable_database_no_service (w : world)
    (rqs : list (scan_order * request)) :
  unreachable (conninfo w) w →
  ∃ e, res (run_process rqs w) = Raised e ∧
       trace (run_process rqs w) =
         [Getenv "DATABASE_URL"; Connect (environ w !! "DATABASE_URL")] ∧
       (Listen ∉ trace (run_process rqs w)) ∧
       servers (final (run_process rqs w)) = servers w ∧
       res (script w) = Raised e ∧
       trace (script w) = trace (run_process rqs w).
Proof.
  intros H. rewrite script_unfold, run_process_unfold, main_unfold.
  rewrite (unreachable_stage w H). cbn [res final trace].
  eexists. split; [reflexivity|]. split; [reflexivity|].
  split; [apply (not_listening 2); lia|]. done.
Qed.

Lemma unreachable_database_no_service_witness :
  let w := World {[ "DATABASE_URL" := "postgresql://db/app" ]} ∅ [] in
  let rqs := [(heap_order, users_request)] in
  unreachable (conninfo w) w ∧
  ∃ e, res (run_process rqs w) = Raised e ∧
       trace (run_process rqs w) =
         [Getenv "DATABASE_URL"; Connect (environ w !! "DATABASE_URL")] ∧
       (Listen ∉ trace (run_process rqs w)) ∧
       servers (final (run_process rqs w)) = servers w ∧
       res (script w) = Raised e ∧
       trace (script w) = trace (run_process rqs w).
Proof.
  intros w rqs.
  assert (H : unreachable (conninfo w) w) by (left; reflexivity).
  split; [exact H|].
  apply (unreachable_database_no_service w rqs H).
Defined.

(** The link down for the connection, and the variable absent with nothing
    at libpq's defaults. *)
Example link_down_no_service :
  res (run_process [] (with_link [Live false] fresh_world)) = Raised OperationalError ∧
  res (run_process [] (World ∅ ∅ [])) = Raised OperationalError.
Proof. split; reflexivity. Qed.

(** PGPORT set to a port where nothing listens, the connection string
    naming none: the constructor cannot connect and the startup raises. *)
Example pgport_stops_startup :
  let w := with_link [default_port_only] fresh_world in
  res (main w) = Returned (Process (Some "postgresql://db/app")
                                   (Handle "postgresql://db/app")) ∧
  res (main (with_environ (<[ "PGPORT" := "5433" ]> (environ w)) w)) =
    Raised OperationalError.
Proof. split; vm_compute; reflexivity. Qed.

(** C4 fails as stated: without DATABASE_URL the gateway is opened by
    libpq's defaults, and where a database answers there the process starts,
    listens and serves. *)
Lemma absent_url_can_start :
  let w := World ∅ {[ "" := ∅ ]} [] in
  environ w !! "DATABASE_URL" = None ∧
  res (run_process [(heap_order, users_request)] w) = Returned [seed_listing] ∧
  Listen ∈ trace (run_process [(heap_order, users_request)] w).
Proof.
  intros w. split; [reflexivity|]. split; [reflexivity|].
  apply (bool_decide_unpack _). vm_compute. exact I.
Qed.

(** ** Requests *)

(** C8: however many requests are served, every database is afterwards what
    it was before, and so is the number of rows of every users table. *)
Theorem reads_keep_row_count (p : process) (rqs : list (scan_order * request))
    (w : world) :
  servers (final (serve p rqs w)) = servers w ∧
  ∀ u, row_count u (final (serve p rqs w)) = row_count u w.
Proof.
  assert (H := serve_servers p rqs w). split; [exact H|].
  intros u. unfold row_count, users_table. by rewrite H.
Qed.

(** C9: when the listing query raises, the request is answered with the
    status 500 and no JSON body, after exactly one query, and the databases
    are as they were. *)
Theorem failed_listing_is_500 (o : scan_order) (p : process) (w : world) (e : exn) :
  res (Postgres_all o (connection p) select_users w) = Raised e →
  res (dispatch o p users_request w) = Returned internal_server_error ∧
  status internal_server_error = 500 ∧
  body internal_server_error = None ∧
  trace (dispatch o p users_request w) = [All select_users] ∧
  servers (final (dispatch o p users_request w)) = servers w.
Proof.
  rewrite Postgres_all_select, dispatch_users. unfold listing_reply.
  destruct (listing o (dsn (connection p)) w) as [recs|e']; cbn [res]; [done|].
  by intros _.
Qed.

Lemma failed_listing_is_500_witness :
  let p := Process None (Handle "postgresql://db/app") in
  let w := with_link [Live false] fresh_world in
  res (Postgres_all heap_order (connection p) select_users w) =
    Raised OperationalError ∧
  res (dispatch heap_order p users_request w) = Returned internal_server_error ∧
  status internal_server_error = 500 ∧
  body internal_server_error = None ∧
  trace (dispatch heap_order p users_request w) = [All select_users] ∧
  servers (final (dispatch heap_order p users_request w)) = servers w.
Proof.
  intros p w.
  assert (H : res (Postgres_all heap_order (connection p) select_users w) =
              Raised OperationalError) by reflexivity.
  split; [exact H|].
  apply (failed_listing_is_500 heap_order p w OperationalError H).
Defined.

(** The users table dropped by another client: the query is rejected. *)
Example missing_table_is_500 :
  let p := Process None (Handle "postgresql://db/app") in
  res (Postgres_all heap_order (connection p) select_users fresh_world) =
    Raised ProgrammingError ∧
  res (dispatch heap_order p users_request fresh_world) =
    Returned internal_server_error.
Proof. split; reflexivity. Qed.

(** ** The environment *)











(** The gateway of an interpreter that serves is the one of the connection
    string read at its startup. *)
Lemma connection_fixed_at_startup w p :
  res (main w) = Returned p →
  SQLALCHEMY_DATABASE_URI p = environ w !! "DATABASE_URL" ∧
  dsn (connection p) = conninfo w.
Proof.
  rewrite main_unfold. unfold startup_stage.
  destruct (link_up w); [|discriminate].
  destruct (servers w !! conninfo w) as [db|]; [|discriminate].
  destruct (second_up w); [|discriminate].
  destruct (db !! "users"); [discriminate|].
  destruct (third_up w); [|discriminate].
  cbn [res]. intros [= <-]. done.
Qed.

(** ** The shape of the listing *)

Lemma jsonify_users (l : list pyval) :
  jsonify (PyDict [("users", PyList l)]) =
  Response 200 (Some (JObject [("users", JArray (map dumps l))])).
Proof. reflexivity. Qed.

Lemma dereference_uniform (n : nat) (recs : list row) :
  Forall (λ r : row, length r = n) recs →
  dereference recs =
  map (if decide (n = 1) then first_field else record) recs.
Proof.
  intros H. destruct H as [|r recs Hr Hrecs]; [reflexivity|].
  unfold dereference. rewrite Hr. by destruct (decide (n = 1)).
Qed.

Lemma reorder_uniform (o : scan_order) (n : nat) (l : list row) :
  Forall (λ r : row, length r = n) l →
  Forall (λ r : row, length r = n) (reorder o l).
Proof. intros H. by rewrite (reorder_perm o l). Qed.

Lemma name_json_bare (r : row) : length r = 1 → bare_name (name_json r).
Proof.
  destruct r as [|[s|] [|? ?]]; try discriminate; intros _.
  - right. by exists s.
  - by left.
Qed.

Lemma listing_returned o u w recs :
  listing o u w = Returned recs →
  link_up w = true ∧
  ∃ db tb, servers w !! u = Some db ∧ db !! "users" = Some tb ∧
           recs = reorder o (rows tb).
Proof.
  unfold listing. destruct (link_up w); [|discriminate].
  destruct (servers w !! u) as [db|]; [|discriminate].
  destruct (db !! "users") as [tb|] eqn:Htb; [|discriminate].
  intros [= <-]. split; [reflexivity|]. by exists db, tb.
Qed.

Lemma users_table_lookup u w db tb :
  servers w !! u = Some db → db !! "users" = Some tb →
  users_table u w = Some tb.
Proof. intros H1 H2. unfold users_table. rewrite H1. exact H2. Qed.

Lemma listing_reply_ok o u w :
  status (listing_reply o u w) = 200 →
  ∃ recs, listing o u w = Returned recs ∧
          listing_reply o u w =
          Response 200 (Some (JObject [("users", JArray (map dumps (dereference recs)))])).
Proof.
  unfold listing_reply. destruct (listing o u w) as [recs|e]; [|discriminate].
  intros _. exists recs. split; [reflexivity|apply jsonify_users].
Qed.

(** C1, as the code has it: a successful answer to GET /users is an object
    with the single key users, holding a sequence; while the users table has
    the single column of its creation, the sequence holds, for each row in
    the order of the scan, the bare value of its name column, a string or
    null, and not an object. *)
Theorem listing_shape (o : scan_order) (p : process) (w : world) (r : response) :
  res (dispatch o p users_request w) = Returned r →
  status r = 200 →
  ∃ l, body r = Some (JObject [("users", JArray l)]) ∧
       ∀ tb, users_table (dsn (connection p)) w = Some tb →
             wf_table tb → columns tb = ["name"] →
             l = map name_json (reorder o (rows tb)) ∧ Forall bare_name l.
Proof.
  rewrite dispatch_users. cbn [res]. intros [= <-] Hst.
  destruct (listing_reply_ok _ _ _ Hst) as (recs & Hl & ->).
  eexists. split; [reflexivity|].
  intros tb Htb Hwf Hcols.
  destruct (listing_returned _ _ _ _ Hl) as (_ & db & tb' & Hdb & Htb' & ->).
  rewrite (users_table_lookup _ _ _ _ Hdb Htb') in Htb. injection Htb as ->.
  unfold wf_table in Hwf. rewrite Hcols in Hwf. cbn [length] in Hwf.
  assert (Hu := reorder_uniform o 1 _ Hwf).
  rewrite (dereference_uniform 1 _ Hu). cbn [decide].
  rewrite map_map. split; [reflexivity|].
  apply Forall_map. eapply Forall_impl; [exact Hu|].
  intros x Hx. by apply name_json_bare.
Qed.

(** C1 fails as stated: started on a fresh database, the service answers
    GET /users with the users sequence ["maggie simpson"], whose element is
    a string, not an object with the key name. *)
Lemma listing_elements_are_not_objects :
  ∃ b, res (run_process [(heap_order, users_request)] fresh_world) =
         Returned [Response 200 (Some b)] ∧
       ¬ users_object name_object b.
Proof.
  exists (JObject [("users", JArray [JString "maggie simpson"])]).
  split; [vm_compute; reflexivity|].
  intros (l & Hl & Hall). injection Hl as <-.
  apply Forall_cons in Hall as [[s Hs] _]. discriminate.
Qed.

Lemma listing_shape_witness :
  let p := Process (Some "postgresql://db/app") (Handle "postgresql://db/app") in
  let w := final (main fresh_world) in
  ∃ l, body (Response 200 (Some (JObject [("users", JArray [JString "maggie simpson"])]))) =
         Some (JObject [("users", JArray l)]) ∧
       ∀ tb, users_table (dsn (connection p)) w = Some tb →
             wf_table tb → columns tb = ["name"] →
             l = map name_json (reorder heap_order (rows tb)) ∧ Forall bare_name l.
Proof.
  intros p w.
  apply (listing_shape heap_order p w
           (Response 200 (Some (JObject [("users", JArray [JString "maggie simpson"])])))).
  - vm_compute. reflexivity.
  - reflexivity.
Defined.

(** ** Reading twice *)

Lemma link_up_at w : link_up w = up_at 0 w.
Proof. unfold link_up, up_at. by destruct (link w). Qed.

Lemma up_at_after_round_trip n w : up_at n (after_round_trip w) = up_at (S n) w.
Proof.
  unfold up_at. cbn [after_round_trip with_link link environ].
  by rewrite lookup_tail.
Qed.




(** The rows stay well formed through the startup. *)
Lemma wf_created db : wf_database db → wf_database (created db).
Proof. intros H. apply map_Forall_insert_2; [constructor|exact H]. Qed.

Lemma wf_seeded db : wf_database db → wf_database (seeded db).
Proof.
  intros H. apply map_Forall_insert_2; [|exact H].
  by repeat constructor.
Qed.

Lemma wf_fresh_world : wf_world fresh_world.
Proof.
  unfold wf_world, fresh_world. cbn [servers].
  apply map_Forall_singleton, map_Forall_empty.
Qed.

Lemma main_wf w : wf_world w → wf_world (final (main w)).
Proof.
  intros Hw. rewrite main_unfold. unfold startup_stage.
  generalize (conninfo w). intros u.
  destruct (link_up w); [|exact Hw].
  destruct (servers w !! u) as [db|] eqn:Hdb; [|exact Hw].
  destruct (second_up w); [|exact Hw].
  destruct (db !! "users"); [exact Hw|].
  assert (Hd : wf_database db) by exact (Hw _ _ Hdb).
  destruct (third_up w); cbn [final].
  - apply map_Forall_insert_2; [by apply wf_seeded|exact Hw].
  - apply map_Forall_insert_2; [by apply wf_created|exact Hw].
Qed.



(** ** The seed *)

Lemma main_returned w p :
  res (main w) = Returned p →
  ∃ u db, p = Process (environ w !! "DATABASE_URL") (Handle u) ∧
          conninfo w = u ∧
          servers w !! u = Some db ∧ db !! "users" = None ∧
          final (main w) = started u db w.
Proof.
  rewrite main_unfold. unfold startup_stage.
  destruct (link_up w); [|discriminate].
  destruct (servers w !! conninfo w) as [db|] eqn:Hdb; [|discriminate].
  destruct (second_up w); [|discriminate].
  destruct (db !! "users") eqn:Htb; [discriminate|].
  destruct (third_up w); [|discriminate].
  cbn [res final]. intros [= <-]. by exists (conninfo w), db.
Qed.

Lemma seed_listed o (tb : table) :
  wf_table tb → columns tb = ["name"] → In seed (rows tb) →
  In (JString "maggie simpson") (map dumps (dereference (reorder o (rows tb)))).
Proof.
  intros Hwf Hcols Hin.
  unfold wf_table in Hwf. rewrite Hcols in Hwf.
  rewrite (dereference_uniform _ _ (reorder_uniform o _ _ Hwf)), map_map.
  refine (in_map name_json _ seed _).
  eapply Permutation_in; [symmetry; apply reorder_perm|exact Hin].
Qed.

Lemma listings_cons_users o rest :
  listings ((o, users_request) :: rest) = S (listings rest).
Proof. reflexivity. Qed.

Lemma listings_cons_other o rq rest :
  rq ≠ users_request → listings ((o, rq) :: rest) = listings rest.
Proof.
  intros Hne. unfold listings. cbn [List.filter snd].
  destruct (for_users rq) eqn:Hf; [|reflexivity].
  destruct rq as [path]. cbn in Hf. apply bool_decide_eq_true in Hf.
  unfold users_request in Hne. congruence.
Qed.

Lemma serve_lists_seed p rqs w db tb :
  servers w !! dsn (connection p) = Some db → db !! "users" = Some tb →
  wf_table tb → columns tb = ["name"] → In seed (rows tb) →
  ∃ rs, res (serve p rqs w) = Returned rs ∧ length rs = length rqs ∧
        ∀ i o r, rqs !! i = Some (o, users_request) → rs !! i = Some r →
                 if up_at (listings (take i rqs)) w
                 then lists_seed r else r = internal_server_error.
Proof.
  intros Hdb Htb Hwf Hcols Hin. revert w Hdb.
  induction rqs as [|[o rq] rest IH]; intros w Hdb.
  - exists []. repeat split. intros i o r Hi. by rewrite lookup_nil in Hi.
  - rewrite serve_cons.
    destruct (dispatch_cases o p rq w) as [[-> Hd]|[Hne Hd]]; rewrite Hd;
      cbn [res final trace].
    + destruct (IH (after_round_trip w) Hdb) as (rs & -> & Hlen & Hrs).
      eexists. split; [reflexivity|]. split; [cbn; by rewrite Hlen|].
      intros [|i] o' r Hi Hr; cbn in Hi, Hr.
      * injection Hr as <-. cbn [take]. change (listings []) with 0.
        rewrite <- link_up_at. unfold listing_reply, listing. rewrite Hdb, Htb.
        destruct (link_up w); [|reflexivity].
        rewrite jsonify_users. eexists. split; [reflexivity|].
        by apply seed_listed.
      * specialize (Hrs i o' r Hi Hr). cbn [take].
        by rewrite listings_cons_users, <- up_at_after_round_trip.
    + destruct (IH w Hdb) as (rs & -> & Hlen & Hrs).
      eexists. split; [reflexivity|]. split; [cbn; by rewrite Hlen|].
      intros [|i] o' r Hi Hr; cbn in Hi, Hr.
      * congruence.
      * specialize (Hrs i o' r Hi Hr). cbn [take].
        by rewrite (listings_cons_other _ _ _ Hne).
Qed.

Lemma lists_seed_status r : lists_seed r → status r = 200.
Proof. by intros (l & -> & _). Qed.

(** C2, as the code has it: after a successful startup, each request to
    GET /users, among whatever other requests, is answered with the listing,
    which contains the seed user, when its round trip to the database goes
    through, and with the status 500 and no record when it does not: every
    200 answer contains the seed. *)
Theorem seed_in_every_listing (w : world) (p : process)
    (rqs : list (scan_order * request)) :
  res (main w) = Returned p →
  ∃ rs, res (serve p rqs (final (main w))) = Returned rs ∧
        res (run_process rqs w) = Returned rs ∧
        length rs = length rqs ∧
        ∀ i o r, rqs !! i = Some (o, users_request) → rs !! i = Some r →
                 (status r = 200 → lists_seed r) ∧
                 if up_at (listings (take i rqs)) (final (main w))
                 then lists_seed r else r = internal_server_error.
Proof.
  intros Hmain. rewrite run_process_unfold, Hmain. cbn [res].
  destruct (main_returned w p Hmain) as (u & db & -> & _ & _ & _ & ->).
  destruct (serve_lists_seed (Process (environ w !! "DATABASE_URL") (Handle u))
              rqs (started u db w) (seeded db) (Table ["name"] [seed]))
    as (rs & Hres & Hlen & Hrs).
  - cbn. apply lookup_insert_eq.
  - apply lookup_insert_eq.
  - by repeat constructor.
  - reflexivity.
  - by left.
  - exists rs. split; [exact Hres|]. split; [exact Hres|]. split; [exact Hlen|].
    intros i o r Hi Hr. specialize (Hrs i o r Hi Hr).
    split; [|exact Hrs].
    destruct (up_at _ _); [by intros _|]. subst r. discriminate.
Qed.

(** The link holds for the startup and the first listing and is lost for
    the second. *)
Lemma seed_in_every_listing_witness :
  let p := Process (Some "postgresql://db/app") (Handle "postgresql://db/app") in
  let w := with_link [Live true; Live true; Live true; Live true; Live false] fresh_world in
  let rqs := [(heap_order, users_request); (heap_order, GET "/");
              (backward_order, users_request)] in
  res (main w) = Returned p ∧
  res (run_process rqs w) = Returned [seed_listing; not_found; internal_server_error] ∧
  ∃ rs, res (serve p rqs (final (main w))) = Returned rs ∧
        res (run_process rqs w) = Returned rs ∧
        length rs = length rqs ∧
        ∀ i o r, rqs !! i = Some (o, users_request) → rs !! i = Some r →
                 (status r = 200 → lists_seed r) ∧
                 if up_at (listings (take i rqs)) (final (main w))
                 then lists_seed r else r = internal_server_error.
Proof.
  intros p w rqs.
  assert (Hmain : res (main w) = Returned p) by reflexivity.
  split; [exact Hmain|]. split; [reflexivity|].
  apply (seed_in_every_listing w p rqs Hmain).
Defined.

(** C2 fails as stated: after a successful startup, a request to GET /users
    whose round trip to the database is lost is answered with the status 500,
    which holds no record. *)
Lemma failed_request_has_no_seed :
  let p := Process (Some "postgresql://db/app") (Handle "postgresql://db/app") in
  let w := with_link [Live true; Live true; Live true; Live false] fresh_world in
  res (main w) = Returned p ∧
  res (run_process [(heap_order, users_request)] w) =
    Returned [internal_server_error] ∧
  ¬ lists_seed internal_server_error.
Proof.
  intros p w. split; [reflexivity|]. split; [reflexivity|].
  intros (l & Hl & _). discriminate.
Qed.

(** ** Statements that fail at startup *)

Lemma open_gateway_returned w c :
  res (open_gateway w) = Returned c →
  conninfo w = dsn c ∧ link_up w = true ∧
  (∃ db, servers w !! dsn c = Some db) ∧
  final (open_gateway w) = after_round_trip w.
Proof.
  unfold open_gateway, conninfo. prog_red. rewrite Postgres_unfold.
  generalize (default "" (environ w !! "DATABASE_URL")). intros u.
  destruct (link_up w); [|discriminate].
  destruct (servers w !! u) as [db|] eqn:Hdb; [|discriminate].
  cbn [res final]. intros [= <-]. cbn [dsn]. eauto.
Qed.

Lemma run_create_unfold c w :
  Postgres_run c create_users w =
  if link_up w then
    match servers w !! dsn c with
    | None => Outcome (Raised OperationalError) (after_round_trip w) [Run create_users]
    | Some db =>
        match db !! "users" with
        | Some _ =>
            Outcome (Raised ProgrammingError) (after_round_trip w) [Run create_users]
        | None =>
            Outcome (Returned ())
                    (with_servers (<[dsn c := created db]> (servers w)) (after_round_trip w))
                    [Run create_users]
        end
    end
  else Outcome (Raised OperationalError) (after_round_trip w) [Run create_users].
Proof.
  rewrite Postgres_run_unfold. unfold transact, create_users.
  rewrite parse_create. unfold exec.
  destruct (link_up w); [|reflexivity].
  destruct (servers w !! dsn c) as [db|]; [|reflexivity].
  destruct (db !! "users"); reflexivity.
Qed.

Lemma run_insert_created c w db :
  servers w !! dsn c = Some (created db) →
  res (Postgres_run c insert_seed w) =
  if link_up w then Returned () else Raised OperationalError.
Proof.
  intros Hdb. rewrite Postgres_run_unfold. unfold transact, insert_seed.
  rewrite parse_insert, Hdb. unfold exec, created. rewrite lookup_insert_eq.
  destruct (link_up w); [|reflexivity].
  cbn [columns]. by destruct (decide _) as [_|Hn]; [|exfalso; apply Hn; cbn; lia].
Qed.

(** C5: when the gateway is open and CREATE TABLE raises, or CREATE TABLE
    succeeds and the seed INSERT raises, the process ends with that
    exception: it does not listen and answers no request. *)
Theorem failed_statement_stops_startup (w : world) (c : Postgres_handle) (e : exn)
    (rqs : list (scan_order * request)) :
  res (open_gateway w) = Returned c →
  res (Postgres_run c create_users (final (open_gateway w))) = Raised e ∨
  (res (Postgres_run c create_users (final (open_gateway w))) = Returned () ∧
   res (Postgres_run c insert_seed
          (final (Postgres_run c create_users (final (open_gateway w))))) = Raised e) →
  res (run_process rqs w) = Raised e ∧
  (Listen ∉ trace (run_process rqs w)) ∧
  Forall (λ ev, ev ≠ All select_users) (trace (run_process rqs w)).
Proof.
  intros Hopen Hfail.
  destruct (open_gateway_returned w c Hopen) as (Henv & Hup & [db Hdb] & Hfin).
  rewrite Hfin in Hfail. clear Hfin Hopen.
  assert (Hmain : res (main w) = Raised e).
  { rewrite main_unfold. unfold startup_stage, second_up, third_up.
    rewrite Henv, Hup, Hdb.
    rewrite !run_create_unfold in Hfail.
    cbn [after_round_trip with_link servers] in Hfail. rewrite Hdb in Hfail.
    fold (after_round_trip w) in Hfail.
    destruct (link_up (after_round_trip w)).
    - destruct (db !! "users") as [tb|]; cbn [res final] in Hfail |- *.
      + destruct Hfail as [Hf|[Hf _]]; [congruence|discriminate Hf].
      + destruct Hfail as [Hf|[_ Hf]]; [discriminate Hf|].
        rewrite (run_insert_created c _ db) in Hf
          by (cbn [with_servers servers]; apply lookup_insert_eq).
        rewrite link_up_with_servers in Hf.
        destruct (link_up (after_round_trip (after_round_trip w)));
          [discriminate Hf|cbn [res]; congruence].
    - cbn [res final] in Hfail |- *.
      destruct Hfail as [Hf|[Hf _]]; [congruence|discriminate Hf]. }
  rewrite run_process_unfold, Hmain. cbn [res trace].
  destruct (main_raised_trace w e Hmain) as (n & Hn & ->).
  split; [reflexivity|]. split; [by apply not_listening|].
  apply Forall_forall. intros ev Hin ->.
  apply list_elem_of_lookup in Hin as [i Hi].
  apply lookup_take_Some in Hi as [Hi _]. unfold startup_events in Hi.
  do 5 (destruct i as [|i]; [discriminate|]). discriminate.
Qed.

(** A second start on the database the first one left: CREATE TABLE
    raises, the table is there. *)
Lemma failed_statement_stops_startup_witness :
  let w := final (main fresh_world) in
  let c := Handle "postgresql://db/app" in
  let rqs := [(heap_order, users_request)] in
  res (open_gateway w) = Returned c ∧
  res (Postgres_run c create_users (final (open_gateway w))) = Raised ProgrammingError ∧
  res (run_process rqs w) = Raised ProgrammingError ∧
  (Listen ∉ trace (run_process rqs w)) ∧
  Forall (λ ev, ev ≠ All select_users) (trace (run_process rqs w)).
Proof.
  intros w c rqs.
  assert (Hopen : res (open_gateway w) = Returned c) by reflexivity.
  assert (Hcreate : res (Postgres_run c create_users (final (open_gateway w))) =
                    Raised ProgrammingError) by reflexivity.
  split; [exact Hopen|]. split; [exact Hcreate|].
  apply (failed_statement_stops_startup w c ProgrammingError rqs Hopen).
  left. exact Hcreate.
Defined.

(** The link lost after CREATE TABLE: the seed INSERT raises. *)
Example insert_failure_stops_startup :
  let w := with_link [Live true; Live true; Live false] fresh_world in
  res (run_process [(heap_order, users_request)] w) = Raised OperationalError ∧
  trace (run_process [(heap_order, users_request)] w) = take 4 (startup_events w).
Proof. split; reflexivity. Qed.

(** ** Starting again *)







(** ** Beyond the listing: routing, counts, the script *)

Lemma serve_nil p w : serve p [] w = Outcome (Returned []) w [].
Proof. reflexivity. Qed.

Lemma for_users_true rq : for_users rq = true ↔ rq = users_request.
Proof.
  destruct rq as [path]. unfold for_users, users_request.
  rewrite bool_decide_eq_true. split; congruence.
Qed.

(** X1: serving a list of requests sends exactly one listing query for each
    request to /users and none for any other path; a request to another path
    is answered with the status 404. *)
Theorem one_query_per_listing (p : process) (rqs : list (scan_order * request))
    (w : world) :
  trace (serve p rqs w) = replicate (listings rqs) (All select_users) ∧
  link (final (serve p rqs w)) = drop (listings rqs) (link w) ∧
  ∃ rs, res (serve p rqs w) = Returned rs ∧
        ∀ i o rq r, rqs !! i = Some (o, rq) → rs !! i = Some r →
                    rq ≠ users_request → r = not_found.
Proof.
  revert w. induction rqs as [|[o rq] rest IH]; intros w.
  - rewrite serve_nil. cbn. split; [reflexivity|]. split; [reflexivity|].
    exists []. split; [reflexivity|]. intros i ? ? ? Hi. by rewrite lookup_nil in Hi.
  - rewrite serve_cons.
    destruct (IH (final (dispatch o p rq w))) as (Htr & Hlk & rs & Hrs & H404).
    rewrite Hrs.
    destruct (dispatch_cases o p rq w) as [[-> Hd]|[Hne Hd]]; rewrite Hd in *;
      cbn [res final trace] in *.
    + unfold listings in *. cbn [List.filter snd for_users users_request].
      rewrite bool_decide_eq_true_2 by reflexivity. cbn [length replicate app].
      rewrite Htr, Hlk. cbn [after_round_trip with_link link].
      split; [reflexivity|].
      split; [destruct (link w); cbn [tail]; [by rewrite !drop_nil|reflexivity]|].
      eexists. split; [reflexivity|].
      intros [|i] o' rq' r Hi Hr Hne; cbn in Hi, Hr.
      * injection Hi as <- <-. done.
      * by eapply H404.
    + assert (Hf : for_users rq = false).
      { destruct (for_users rq) eqn:Hf; [|reflexivity].
        by apply for_users_true in Hf. }
      unfold listings in *. cbn [List.filter snd]. rewrite Hf.
      rewrite Htr, Hlk. split; [reflexivity|]. split; [reflexivity|].
      eexists. split; [reflexivity|].
      intros [|i] o' rq' r Hi Hr Hne'; cbn in Hi, Hr.
      * by injection Hr as <-.
      * by eapply H404.
Qed.




Lemma reorder_singleton (o : scan_order) (r : row) : reorder o [r] = [r].
Proof. apply Permutation_singleton_r, reorder_perm. Qed.

(** X4: right after a successful startup, a request to GET /users that
    reaches the database is answered with the status 200 and exactly the
    listing of the seed, whatever the order of the scan. *)
Theorem first_listing_is_the_seed (w : world) (p : process) (o : scan_order) :
  res (main w) = Returned p →
  link_up (final (main w)) = true →
  res (dispatch o p users_request (final (main w))) = Returned seed_listing.
Proof.
  intros Hmain Hup.
  destruct (main_returned w p Hmain) as (u & db & -> & _ & _ & _ & Hfin).
  rewrite Hfin in Hup |- *. rewrite dispatch_users. cbn [res connection dsn].
  f_equal. unfold listing_reply, listing. rewrite Hup.
  unfold started. cbn [servers]. rewrite lookup_insert_eq.
  unfold seeded. rewrite lookup_insert_eq. cbn [rows].
  rewrite reorder_singleton. reflexivity.
Qed.

Lemma first_listing_is_the_seed_witness :
  let p := Process (Some "postgresql://db/app") (Handle "postgresql://db/app") in
  res (main fresh_world) = Returned p ∧
  link_up (final (main fresh_world)) = true ∧
  res (dispatch backward_order p users_request (final (main fresh_world))) =
    Returned seed_listing.
Proof.
  intros p.
  assert (Hmain : res (main fresh_world) = Returned p) by reflexivity.
  assert (Hup : link_up (final (main fresh_world)) = true) by reflexivity.
  split; [exact Hmain|]. split; [exact Hup|].
  apply (first_listing_is_the_seed fresh_world p backward_order Hmain Hup).
Defined.

(** ** The file launched as a script *)


